(** * cpp-app-template: the logging capability, its factory and the
      composition root, embedded in Rocq.

    Source files covered:
    - [lib/logger/include/logger/ILogger.hpp]       (class [ILogger])
    - [lib/logger/include/logger/LoggerFactory.hpp] ([createDefaultLogger], declaration)
    - [lib/logger/src/ConsoleLogger.cpp]            ([ConsoleLogger::log], [createDefaultLogger])
    - [app/sampleApp/src/main.cpp]                  ([main])
    - the fixtures, loops and parameterised test bodies of the two test
      files ([test/int/appIntTest], [test/unit/loggerUnitTest]).

    The C++ code is a handful of side-effecting calls, so the embedding is a
    state-and-exception monad over a [world] that holds what the code can
    touch: the bytes already written to [std::cout], the heap of live
    [ILogger] objects, and the process environment (which the code never
    reads).  A ghost [trace] records the calls made through the public
    interface, so that statements about "which calls, in which order" can be
    made at all.

    Standing assumptions of the model (nothing in the repository changes
    them): [std::cout] is in its default formatting state and writes to it
    succeed; [operator new] does not run out of memory; the line terminator
    ['\n'] is the single byte LF. *)

From Stdlib Require Import Strings.String Strings.Byte ZArith NArith List Lia.
From stdpp Require Import gmap list pretty.

Import ListNotations.
Local Open Scope list_scope.

(** ** Bytes and text *)

(** [std::string_view]: a sequence of bytes, no terminator, no encoding. *)
Abbreviation string_view := (list byte).

(** A C++ narrow string literal. *)
Definition lit (s : string) : string_view := list_byte_of_string s.

(** The character literal ['\n']. *)
Definition LF : byte := x0a.

(** *** The documented precondition of [ILogger::log]

    [ILogger.hpp] line 23: "Must be valid UTF-8".  The predicate follows the
    well-formedness table of RFC 3629 (no overlong forms, no surrogates,
    nothing above U+10FFFF).  The code never evaluates it; it only appears
    in statements. *)

Definition in_range (lo hi : N) (b : byte) : bool :=
  (lo <=? Byte.to_N b)%N && (Byte.to_N b <=? hi)%N.

Definition utf8_tail : byte -> bool := in_range 0x80 0xBF.

Fixpoint valid_utf8 (bs : list byte) : bool :=
  match bs with
  | [] => true
  | b0 :: r0 =>
    if in_range 0x00 0x7F b0 then valid_utf8 r0
    else if in_range 0xC2 0xDF b0 then
      match r0 with
      | b1 :: r1 => utf8_tail b1 && valid_utf8 r1
      | _ => false
      end
    else if in_range 0xE0 0xEF b0 then
      match r0 with
      | b1 :: b2 :: r2 =>
        (if in_range 0xE0 0xE0 b0 then in_range 0xA0 0xBF b1
         else if in_range 0xED 0xED b0 then in_range 0x80 0x9F b1
         else utf8_tail b1)
        && utf8_tail b2 && valid_utf8 r2
      | _ => false
      end
    else if in_range 0xF0 0xF4 b0 then
      match r0 with
      | b1 :: b2 :: b3 :: r3 =>
        (if in_range 0xF0 0xF0 b0 then in_range 0x90 0xBF b1
         else if in_range 0xF4 0xF4 b0 then in_range 0x80 0x8F b1
         else utf8_tail b1)
        && utf8_tail b2 && utf8_tail b3 && valid_utf8 r3
      | _ => false
      end
    else false
  end.

(** *** Lines of an output

    The lines of a text: every LF ends a line; bytes after the last LF, if
    any, form a last unterminated line. *)
Fixpoint lines (bs : list byte) : list (list byte) :=
  match bs with
  | [] => []
  | b :: r =>
    if Byte.eqb b LF then [] :: lines r
    else match lines r with
         | [] => [[b]]
         | l :: ls => (b :: l) :: ls
         end
  end.

(** ** The world the program runs in *)

(** Addresses of heap objects; [nullptr] is not one of them. *)
Abbreviation loc := positive.

(** [std::unique_ptr<ILogger>]: empty ([nullptr]) or owning one object. *)
Abbreviation unique_ptr := (option loc).
Definition nullptr : unique_ptr := None.

(** The classes derived from [ILogger].  [ConsoleLogger] is the only one
    (ConsoleLogger.cpp:14); it is [final] and has no data members. *)
Inductive dyn_type : Type := ConsoleLogger.

(** A heap object of static type [ILogger]: only its dynamic type (the
    vtable pointer); no class of the hierarchy declares a field. *)
Record object : Type := Object { vptr : dyn_type }.

(** Ghost history: the calls made through the public interface and the
    object lifetimes they start and end. *)
Inductive event : Type :=
| EvCreate (p : unique_ptr)             (* createDefaultLogger() returned p *)
| EvLog (l : loc) (m : string_view)     (* l->log(m) *)
| EvDestroy (l : loc)                   (* ~unique_ptr / reset() deleted l *)
| EvCopy (src dst : loc)                (* ILogger(const ILogger&) built dst *)
| EvMove (src dst : loc).               (* ILogger(ILogger&&) built dst *)

(** What a process is started with.  [main] is declared without parameters
    (main.cpp:12), and nothing reads the environment or standard input. *)
Record process_env : Type := ProcessEnv {
  argv : list string;
  environ : list (string * string);
  cin : list byte
}.

Record world : Type := World {
  cout : list byte;          (* bytes written to std::cout so far *)
  heap : gmap loc object;    (* live objects *)
  trace : list event;        (* ghost history, oldest first *)
  penv : process_env
}.

Definition set_cout (f : list byte -> list byte) (w : world) : world :=
  {| cout := f (cout w); heap := heap w; trace := trace w; penv := penv w |}.
Definition set_heap (f : gmap loc object -> gmap loc object) (w : world) : world :=
  {| cout := cout w; heap := f (heap w); trace := trace w; penv := penv w |}.
Definition record (e : event) (w : world) : world :=
  {| cout := cout w; heap := heap w; trace := trace w ++ [e]; penv := penv w |}.

(** ** Computations: state, C++ exceptions, undefined behaviour *)

(** The exception types that occur: [std::runtime_error], the one the
    repository names (LoggerFactory.hpp:15), and [std::length_error], which
    the constructor of [std::string] throws. *)
Inductive exn : Type := runtime_error (what : string) | length_error.

Inductive outcome (A : Type) : Type :=
| Normal (a : A) (w : world)      (* returned a *)
| Thrown (e : exn) (w : world)    (* left by an exception *)
| Undefined.                      (* undefined behaviour *)
Arguments Normal {A} a w.
Arguments Thrown {A} e w.
Arguments Undefined {A}.

Definition M (A : Type) : Type := world -> outcome A.

Definition ret {A} (a : A) : M A := fun w => Normal a w.
Definition bind {A B} (c : M A) (k : A -> M B) : M B :=
  fun w => match c w with
           | Normal a w' => k a w'
           | Thrown e w' => Thrown e w'
           | Undefined => Undefined
           end.
Definition undefined {A} : M A := fun _ => Undefined.
Definition modify (f : world -> world) : M unit := fun w => Normal tt (f w).
Definition gets {A} (f : world -> A) : M A := fun w => Normal (f w) w.

Declare Scope cpp_scope.
Delimit Scope cpp_scope with cpp.
Notation "x <- c ;; k" := (bind c (fun x => k))
  (at level 100, c at next level, right associativity) : cpp_scope.
Notation "c ;;; k" := (bind c (fun _ => k))
  (at level 100, right associativity) : cpp_scope.
Local Open Scope cpp_scope.

(** A ghost step: note an event in the history. The program state proper
    ([cout], [heap], [penv]) is not touched. *)
Definition ghost (e : event) : M unit := modify (record e).

(** ** lib/logger *)

(** [std::cout << sv] for a [std::string_view], and [std::cout << c] for a
    [char]: formatted output with width 0, that is, the bytes themselves. *)
Definition cout_put_sv (sv : string_view) : M unit :=
  modify (set_cout (fun out => out ++ sv)).
Definition cout_put_char (c : byte) : M unit :=
  modify (set_cout (fun out => out ++ [c])).

(** ConsoleLogger.cpp:16
    [void log(std::string_view message) override
       { std::cout << message << '\n'; }] *)
Definition ConsoleLogger_log (message : string_view) : M unit :=
  cout_put_sv message ;;; cout_put_char LF.

(** The virtual table of [ILogger]: its one pure virtual member
    (ILogger.hpp:24). *)
Record ILogger_vtable : Type := { vt_log : string_view -> M unit }.

Definition vtable_of (t : dyn_type) : ILogger_vtable :=
  match t with
  | ConsoleLogger => {| vt_log := ConsoleLogger_log |}
  end.

(** A virtual call [p->log(message)] through an [ILogger*]: dispatch on the
    dynamic type of the object at [p]; no live object there is undefined
    behaviour. *)
Definition ILogger_log (p : loc) (message : string_view) : M unit :=
  o <- gets (fun w => heap w !! p) ;;
  match o with
  | Some obj =>
    ghost (EvLog p message) ;;;
    vt_log (vtable_of (vptr obj)) message
  | None => undefined
  end.

(** [operator->] of [std::unique_ptr]: undefined on an empty pointer. *)
Definition arrow (p : unique_ptr) : M loc :=
  match p with
  | Some l => ret l
  | None => undefined
  end.

(** [logger->log(message)] on a [std::unique_ptr<ILogger>]. *)
Definition log (logger : unique_ptr) (message : string_view) : M unit :=
  l <- arrow logger ;; ILogger_log l message.

(** The destructor of [std::unique_ptr<ILogger>] (also [reset()]): deletes
    the owned object, if any, through the virtual destructor
    (ILogger.hpp:13). *)
Definition unique_ptr_destroy (p : unique_ptr) : M unit :=
  match p with
  | Some l =>
    o <- gets (fun w => heap w !! l) ;;
    match o with
    | Some _ => modify (set_heap (delete l)) ;;; ghost (EvDestroy l)
    | None => undefined
    end
  | None => ret tt
  end.

(** AppIntTest.cpp:172
    [for (const auto &message : messages) { logger().log(message); }] *)
Fixpoint log_each (logger : unique_ptr) (messages : list string_view) : M unit :=
  match messages with
  | [] => ret tt
  | m :: ms => log logger m ;;; log_each logger ms
  end.

(** A fresh process: nothing written, nothing allocated. *)
Definition process_start (e : process_env) : world :=
  {| cout := []; heap := ∅; trace := []; penv := e |}.

(** [EXIT_SUCCESS] of [<cstdlib>]. *)
Definition EXIT_SUCCESS : Z := 0.

(** How a process ends: [main] returned a status, or an exception left
    [main] and [std::terminate] aborted the process. *)
Inductive exit_kind : Type := Exited (status : Z) | Aborted.

Record process_result : Type := ProcessResult {
  stdout : list byte;
  exit_status : exit_kind
}.

Section Allocator.

(** [operator new]: given the addresses of the live objects, the address
    of the new storage.  The language only promises that it is not one of
    the live ones. *)
Variable alloc : gset loc -> loc.

(** A [new]-expression: storage from [operator new], then the object
    constructed in it. *)
Definition new_object (obj : object) : M loc :=
  l <- gets (fun w => alloc (dom (heap w))) ;;
  modify (set_heap (insert l obj)) ;;;
  ret l.

(** [std::make_unique<ConsoleLogger>()]: a new [ConsoleLogger] (its
    constructors are the defaulted ones) and the pointer that owns it. *)
Definition make_unique_ConsoleLogger : M unique_ptr :=
  l <- new_object (Object ConsoleLogger) ;;
  ret (Some l).

(** ConsoleLogger.cpp:21
    [auto createDefaultLogger() -> std::unique_ptr<ILogger>
       { return std::make_unique<ConsoleLogger>(); }] *)
Definition createDefaultLogger : M unique_ptr :=
  p <- make_unique_ConsoleLogger ;;
  ghost (EvCreate p) ;;;
  ret p.

(** ** app/sampleApp *)

(** main.cpp:12-22. The local [logger] is destroyed when [main] returns. *)
Definition main : M Z :=
  logger <- createDefaultLogger ;;
  log logger (lit "Application started") ;;;
  log logger (lit "Hello from cpp-app-template!") ;;;
  log logger (lit "Application finished") ;;;
  unique_ptr_destroy logger ;;;
  ret EXIT_SUCCESS.

(** One run of the program; [None] if it ran into undefined behaviour. *)
Definition run_process (e : process_env) : option process_result :=
  match main (process_start e) with
  | Normal st w => Some {| stdout := cout w; exit_status := Exited st |}
  | Thrown _ w => Some {| stdout := cout w; exit_status := Aborted |}
  | Undefined => None
  end.

(** The factory called [n] times in sequence, every result kept
    (LoggerFactoryTest.cpp:74-75 is the case [n = 2]). *)
Fixpoint createDefaultLogger_n (n : nat) : M (list unique_ptr) :=
  match n with
  | O => ret []
  | S k =>
    p <- createDefaultLogger ;;
    ps <- createDefaultLogger_n k ;;
    ret (p :: ps)
  end.

End Allocator.

(** ** What a client may do with an [ILogger] *)

(** The special member functions of a class. *)
Inductive special_member : Type :=
| DefaultCtor | Dtor | CopyCtor | CopyAssign | MoveCtor | MoveAssign.

Inductive member_def : Type := Defaulted | Deleted.

Definition usable (d : member_def) : bool :=
  match d with Defaulted => true | Deleted => false end.

(** ILogger.hpp:12-18. *)
Definition ILogger_special (m : special_member) : member_def :=
  match m with
  | DefaultCtor => Defaulted
  | Dtor => Defaulted
  | CopyCtor => Deleted
  | CopyAssign => Deleted
  | MoveCtor => Deleted
  | MoveAssign => Deleted
  end.

(** The statements a client can write on the loggers of the library, the
    instances that [createDefaultLogger] hands out.  The last four are the
    ways to duplicate or relocate such an instance.  (Objects of a client's
    own classes derived from [ILogger] come with [xstmt] below.) *)
Inductive stmt : Type :=
| SCreate                               (* createDefaultLogger() *)
| SLog (l : loc) (m : string_view)      (* l->log(m) *)
| SDestroy (l : loc)                    (* the owning pointer dies *)
| SCopyConstruct (src : loc)            (* new T{ *src } *)
| SMoveConstruct (src : loc)            (* new T{ std::move( *src ) } *)
| SCopyAssign (dst src : loc)           (* *dst = *src *)
| SMoveAssign (dst src : loc).          (* *dst = std::move( *src ) *)

(** The special member a statement calls on the logger class. *)
Definition needs (s : stmt) : option special_member :=
  match s with
  | SCreate | SLog _ _ => None
  | SDestroy _ => Some Dtor
  | SCopyConstruct _ => Some CopyCtor
  | SMoveConstruct _ => Some MoveCtor
  | SCopyAssign _ _ => Some CopyAssign
  | SMoveAssign _ _ => Some MoveAssign
  end.

Definition duplicates_or_relocates (s : stmt) : bool :=
  match s with
  | SCopyConstruct _ | SMoveConstruct _ | SCopyAssign _ _ | SMoveAssign _ _ => true
  | _ => false
  end.

(** A statement is well-formed for a class when the member it calls is not
    deleted; a program that uses a deleted function is rejected. *)
Definition compiles (cls : special_member -> member_def) (s : stmt) : bool :=
  match needs s with
  | Some m => usable (cls m)
  | None => true
  end.

Section ClientSemantics.

Variable alloc : gset loc -> loc.

(** A new object built from the one at [src] by a copy or move
    constructor. *)
Definition construct_from (ev : loc -> loc -> event) (src : loc) : M unit :=
  o <- gets (fun w => heap w !! src) ;;
  match o with
  | Some obj => dst <- new_object alloc obj ;; ghost (ev src dst)
  | None => undefined
  end.

(** The object at [dst] overwritten by an assignment operator. *)
Definition assign_from (dst src : loc) : M unit :=
  o <- gets (fun w => heap w !! src) ;;
  d <- gets (fun w => heap w !! dst) ;;
  match o, d with
  | Some obj, Some _ => modify (set_heap (insert dst obj))
  | _, _ => undefined
  end.

Definition exec (s : stmt) : M unit :=
  match s with
  | SCreate => createDefaultLogger alloc ;;; ret tt
  | SLog l m => ILogger_log l m
  | SDestroy l => unique_ptr_destroy (Some l)
  | SCopyConstruct src => construct_from EvCopy src
  | SMoveConstruct src => construct_from EvMove src
  | SCopyAssign dst src => assign_from dst src
  | SMoveAssign dst src => assign_from dst src
  end.

Fixpoint exec_all (prog : list stmt) : M unit :=
  match prog with
  | [] => ret tt
  | s :: rest => exec s ;;; exec_all rest
  end.

End ClientSemantics.

(** The instances that the history says came from the factory and are
    still alive. *)
Definition factory_step (s : gset loc) (e : event) : gset loc :=
  match e with
  | EvCreate (Some l) => {[ l ]} ∪ s
  | EvDestroy l => s ∖ {[ l ]}
  | _ => s
  end.

Definition factory_live (tr : list event) : gset loc :=
  fold_left factory_step tr ∅.

(** Every live object is an instance the factory produced. *)
Definition all_from_factory (w : world) : Prop :=
  dom (heap w) = factory_live (trace w).

(** ** Clients that bring their own loggers *)

(** [ILogger] is open for derivation: its default constructor is public
    (ILogger.hpp:12) and [log] is pure virtual (ILogger.hpp:24). A class
    that a client derives from it is described by what its [log] override
    writes to [std::cout] for a message (nothing, for a logger that
    discards or writes elsewhere). *)
Record client_class : Type := ClientClass {
  client_log : string_view -> list byte
}.

(** A logger that discards every message. *)
Definition null_logger : client_class := {| client_log := fun _ => [] |}.

(** The process of such a client: the world of the library, and the live
    objects of the client's own classes. *)
Record xworld : Type := XWorld {
  lib : world;
  derived : gmap loc client_class
}.

Definition xstart (e : process_env) : xworld :=
  {| lib := process_start e; derived := ∅ |}.

(** The storage in use, and so the live [ILogger] instances: the objects
    of the library and those of the client's classes. *)
Definition in_use (xw : xworld) : gset loc :=
  dom (heap (lib xw)) ∪ dom (derived xw).

(** The statements of a client with classes of its own: those of [stmt],
    which act on the loggers of the library, and the construction, use and
    deletion of an object of a client class.  There is no statement that
    constructs a [ConsoleLogger]: the class is in the unnamed namespace of
    ConsoleLogger.cpp (lines 9-19) and cannot be named by a client. *)
Inductive xstmt : Type :=
| XLib (s : stmt)                           (* a statement on a library logger *)
| XNewDerived (c : client_class)            (* new C(): C's constructor runs ILogger() *)
| XLogDerived (l : loc) (m : string_view)   (* l->log(m), reaching C::log *)
| XDeleteDerived (l : loc).                 (* delete l, through virtual ~ILogger *)

Definition xneeds (s : xstmt) : option special_member :=
  match s with
  | XLib s => needs s
  | XNewDerived _ => Some DefaultCtor
  | XLogDerived _ _ => None
  | XDeleteDerived _ => Some Dtor
  end.

Definition xcompiles (cls : special_member -> member_def) (s : xstmt) : bool :=
  match xneeds s with
  | Some m => usable (cls m)
  | None => true
  end.

Definition xduplicates_or_relocates (s : xstmt) : bool :=
  match s with
  | XLib s => duplicates_or_relocates s
  | _ => false
  end.

Section OpenClient.

Variable alloc : gset loc -> loc.

(** One statement; [None] is undefined behaviour (a statement on an object
    that is not there, or not of the kind the statement is for). The
    allocator is shown all storage in use. *)
Definition xexec (s : xstmt) (xw : xworld) : option xworld :=
  match s with
  | XLib s =>
    match exec (fun X => alloc (X ∪ dom (derived xw))) s (lib xw) with
    | Normal _ w' => Some {| lib := w'; derived := derived xw |}
    | _ => None
    end
  | XNewDerived c =>
    Some {| lib := lib xw; derived := <[alloc (in_use xw) := c]> (derived xw) |}
  | XLogDerived l m =>
    match derived xw !! l with
    | Some c =>
      Some {| lib := set_cout (fun out => out ++ client_log c m) (lib xw);
              derived := derived xw |}
    | None => None
    end
  | XDeleteDerived l =>
    match derived xw !! l with
    | Some _ => Some {| lib := lib xw; derived := delete l (derived xw) |}
    | None => None
    end
  end.

Fixpoint xexec_all (prog : list xstmt) (xw : xworld) : option xworld :=
  match prog with
  | [] => Some xw
  | s :: rest =>
    match xexec s xw with
    | Some xw1 => xexec_all rest xw1
    | None => None
    end
  end.

End OpenClient.

(** Every live [ILogger] instance, of whatever class, is one the factory
    produced. *)
Definition every_instance_from_factory (xw : xworld) : Prop :=
  in_use xw = factory_live (trace (lib xw)).

(** A client that uses a logger of the library next to one of its own. *)
Definition mixed_client : list xstmt :=
  [XLib SCreate;
   XNewDerived null_logger;
   XLib (SLog 1%positive (lit "to the console"));
   XLogDerived 2%positive (lit "to nowhere")].

(** ** Concrete worlds used in examples *)

Definition env0 : process_env := {| argv := []; environ := []; cin := [] |}.

(** A process that has called the factory once: one live [ConsoleLogger]
    at address 1. *)
Definition world_with_logger : world :=
  {| cout := [];
     heap := {[ 1%positive := Object ConsoleLogger ]};
     trace := [EvCreate (Some 1%positive)];
     penv := env0 |}.

(** The message of LoggerFactoryTest.cpp:61, ["Line 1\nLine 2\nLine 3"]. *)
Definition three_line_message : string_view :=
  lit "Line 1" ++ [LF] ++ lit "Line 2" ++ [LF] ++ lit "Line 3".

(** The message of LoggerFactoryTest.cpp:68: tab, CR, LF, backslash and the
    two quotes after the text. *)
Definition special_chars_message : string_view :=
  lit "Special chars: " ++ [x09; x0d; x0a; x5c; x22; x27].

(** The messages of a sequence of [log] calls, each followed by LF. *)
Definition written (messages : list string_view) : list byte :=
  concat (map (fun m => m ++ [LF]) messages).

(** A client that creates two loggers, logs through both and lets the
    first one go (compare AppIntTest.cpp:136-146). *)
Definition two_component_client : list stmt :=
  [SCreate; SCreate;
   SLog 1%positive (lit "Component A: Processing task");
   SLog 2%positive (lit "Component B: Processing task");
   SDestroy 1%positive].

(** ** test/: the fixtures and the test bodies *)

(** [std::to_string(int)]: the decimal numeral, with a minus sign in front
    of a negative value. *)
Definition to_string (i : Z) : string_view := lit (pretty i).

(** The largest [int]. *)
Definition INT_MAX : Z := 2147483647.




(** [unique_ptr::reset(p)], and move assignment from a temporary that owns
    [p]: the pointer takes [p] and the object owned before is deleted. *)
Definition unique_ptr_reset (self p : unique_ptr) : M unique_ptr :=
  unique_ptr_destroy self ;;; ret p.

(** [for (int i = 0; i < n; ++i) body(i)], written as a loop from [i] over
    the number of rounds left. *)
Fixpoint for_from (i : Z) (rounds : nat) (body : Z -> M unit) : M unit :=
  match rounds with
  | O => ret tt
  | S k => body i ;;; for_from (i + 1) k body
  end.

Definition for_upto (n : nat) (body : Z -> M unit) : M unit := for_from 0 n body.

(** The fixtures [AppLoggingIntSuite] (AppIntTest.cpp:21-37) and
    [AppScenarioTest] (AppIntTest.cpp:151-165): the same member and the
    same [logger], [SetUp] and [TearDown]; [hasLogger] is in the first
    only. *)
Module AppLoggingIntSuite.

Record fixture : Type := Fixture { logger_ : unique_ptr }.

(** The fixture as the test framework constructs it: [logger_] is
    default-initialised. *)
Definition fixture_new : fixture := {| logger_ := nullptr |}.

(** [auto logger() const -> ILogger & { return *logger_; }] *)
Definition logger (fx : fixture) : M loc := arrow (logger_ fx).

(** [auto hasLogger() const -> bool { return logger_ != nullptr; }] *)
Definition hasLogger (fx : fixture) : bool := bool_decide (logger_ fx <> nullptr).

(** [void SetUp() override { logger_ = createDefaultLogger(); }] *)
Definition SetUp (alloc : gset loc -> loc) (fx : fixture) : M fixture :=
  p <- createDefaultLogger alloc ;;
  q <- unique_ptr_reset (logger_ fx) p ;;
  ret {| logger_ := q |}.

(** [void TearDown() override { logger_.reset(); }] *)
Definition TearDown (fx : fixture) : M fixture :=
  q <- unique_ptr_reset (logger_ fx) nullptr ;;
  ret {| logger_ := q |}.

(** [logger().log(message)] *)
Definition logger_log (fx : fixture) (message : string_view) : M unit :=
  l <- logger fx ;; ILogger_log l message.

(** AppIntTest.cpp:167-176, the body of [ScenarioMessageSequence] for the
    parameter [messages]; the fixed sequences of the [TEST_F] bodies
    (AppIntTest.cpp:50-98) are instances of it.  [EXPECT_NO_THROW] around
    the loop would only act on an exception, and [log] throws none. *)
Fixpoint ScenarioMessageSequence (fx : fixture) (messages : list string_view) : M unit :=
  match messages with
  | [] => ret tt
  | m :: ms => logger_log fx m ;;; ScenarioMessageSequence fx ms
  end.

(** AppIntTest.cpp:101-110, with the bound [100] as a parameter:
    [ASSERT_TRUE(hasLogger())] leaves the test when it fails, then
    [for (int i = 0; i < n; ++i) logger().log("Log message " + std::to_string(i));] *)
Definition HighVolumeLogging (n : nat) (fx : fixture) : M unit :=
  if hasLogger fx then
    for_upto n (fun i => logger_log fx (lit "Log message " ++ to_string i))
  else ret tt.

Definition HighVolumeLoggingScenario : fixture -> M unit := HighVolumeLogging 100.

(** One test of the suite, in the order of the test framework: a new
    fixture, [SetUp], the body, [TearDown], the fixture destroyed. *)
Definition run_test (alloc : gset loc -> loc) (body : fixture -> M unit) : M unit :=
  fx <- SetUp alloc fixture_new ;;
  body fx ;;;
  fx' <- TearDown fx ;;
  unique_ptr_destroy (logger_ fx').

(** The pointer of the fixture is empty or owns a live object. *)
Definition fixture_ok (fx : fixture) (w : world) : Prop :=
  forall l, logger_ fx = Some l -> is_Some (heap w !! l).

End AppLoggingIntSuite.


(** ** The composition root over any factory *)

(** main.cpp:12-22 with the factory it is linked against as a parameter:
    [LoggerFactory.hpp] is all that [main] knows of it. *)
Definition main_with (factory : M unique_ptr) : M Z :=
  logger <- factory ;;
  log logger (lit "Application started") ;;;
  log logger (lit "Hello from cpp-app-template!") ;;;
  log logger (lit "Application finished") ;;;
  unique_ptr_destroy logger ;;;
  ret EXIT_SUCCESS.


(** The pointer owns a live object. *)
Definition owns_live (p : unique_ptr) (w : world) : Prop :=
  exists l, p = Some l /\ is_Some (heap w !! l).

(** The messages a client program logs, in program order. *)
Definition logged_messages (prog : list stmt) : list string_view :=
  flat_map (fun s => match s with SLog _ m => [m] | _ => [] end) prog.

(** * Properties *)

(** ** Text *)

Example lines_demo :
  lines (lit "ab" ++ [LF] ++ [LF] ++ lit "c" ++ [LF]) = [lit "ab"; []; lit "c"].
Proof. reflexivity. Qed.

Example valid_utf8_demo :
  valid_utf8 (lit "Hello") = true /\
  valid_utf8 [xc3; xa9] = true /\
  valid_utf8 [xe2; x82; xac] = true /\
  valid_utf8 [xf0; x9f; x98; x80] = true /\
  valid_utf8 [xc0; x80] = false /\
  valid_utf8 [xed; xa0; x80] = false /\
  valid_utf8 [xff] = false /\
  valid_utf8 [xe2; x82] = false.
Proof. repeat split; reflexivity. Qed.


(** ** One call at a time *)

Lemma world_eta (w : world) :
  {| cout := cout w; heap := heap w; trace := trace w; penv := penv w |} = w.
Proof. by destruct w. Qed.

(** The effect of [ConsoleLogger::log]: the message, then one LF. *)
Lemma ConsoleLogger_log_run (m : string_view) (w : world) :
  ConsoleLogger_log m w = Normal tt (set_cout (fun out => out ++ m ++ [LF]) w).
Proof.
  unfold ConsoleLogger_log, cout_put_sv, cout_put_char, bind, modify, set_cout.
  simpl. by rewrite <- app_assoc.
Qed.

(** A virtual call on a live object reaches [ConsoleLogger::log]. *)
Lemma ILogger_log_live (l : loc) (m : string_view) (w : world) (obj : object) :
  heap w !! l = Some obj ->
  ILogger_log l m w =
    Normal tt {| cout := cout w ++ m ++ [LF]; heap := heap w;
                 trace := trace w ++ [EvLog l m]; penv := penv w |}.
Proof.
  intros Hl. unfold ILogger_log, bind, gets. rewrite Hl.
  destruct obj as [[]]. unfold modify. simpl.
  by rewrite ConsoleLogger_log_run.
Qed.

Lemma ILogger_log_dead (l : loc) (m : string_view) (w : world) :
  heap w !! l = None -> ILogger_log l m w = Undefined.
Proof. intros Hl. unfold ILogger_log, bind, gets. by rewrite Hl. Qed.

Lemma log_live (l : loc) (m : string_view) (w : world) (obj : object) :
  heap w !! l = Some obj ->
  log (Some l) m w =
    Normal tt {| cout := cout w ++ m ++ [LF]; heap := heap w;
                 trace := trace w ++ [EvLog l m]; penv := penv w |}.
Proof. intros Hl. unfold log, arrow, bind, ret. by apply ILogger_log_live with obj. Qed.

Lemma unique_ptr_destroy_live (l : loc) (w : world) (obj : object) :
  heap w !! l = Some obj ->
  unique_ptr_destroy (Some l) w =
    Normal tt {| cout := cout w; heap := delete l (heap w);
                 trace := trace w ++ [EvDestroy l]; penv := penv w |}.
Proof. intros Hl. unfold unique_ptr_destroy, bind, gets. by rewrite Hl. Qed.

Lemma createDefaultLogger_run (alloc : gset loc -> loc) (w : world) :
  createDefaultLogger alloc w =
    Normal (Some (alloc (dom (heap w))))
      {| cout := cout w;
         heap := <[alloc (dom (heap w)) := Object ConsoleLogger]> (heap w);
         trace := trace w ++ [EvCreate (Some (alloc (dom (heap w))))];
         penv := penv w |}.
Proof. reflexivity. Qed.

(** ** The composition root *)

(** Run the first call of a sequence on the object just inserted in the
    heap, with the lemma that describes the call on a live object. *)
Ltac run_call lem :=
  unfold bind at 1;
  erewrite lem by (simpl; apply lookup_insert_eq).

(** [main] from any world: one factory call, three log calls, the
    destruction of the local, and [EXIT_SUCCESS]. *)
Lemma main_run (alloc : gset loc -> loc) (w : world) :
  let l := alloc (dom (heap w)) in
  main alloc w =
    Normal EXIT_SUCCESS
      {| cout := cout w ++ lit "Application started" ++ [LF]
                        ++ lit "Hello from cpp-app-template!" ++ [LF]
                        ++ lit "Application finished" ++ [LF];
         heap := delete l (<[l := Object ConsoleLogger]> (heap w));
         trace := trace w ++ [EvCreate (Some l);
                              EvLog l (lit "Application started");
                              EvLog l (lit "Hello from cpp-app-template!");
                              EvLog l (lit "Application finished");
                              EvDestroy l];
         penv := penv w |}.
Proof.
  intros l. unfold main.
  unfold bind at 1. rewrite createDefaultLogger_run. fold l.
  do 3 run_call (log_live l).
  run_call (unique_ptr_destroy_live l).
  unfold ret. simpl. by rewrite <- !app_assoc.
Qed.

(** C1: running the entry point makes exactly one factory call and then
    exactly three [log] calls, with the messages "Application started",
    "Hello from cpp-app-template!" and "Application finished" in this order;
    standard output is exactly these three lines, each ended by a newline,
    and the process exits with the success status. *)
Theorem main_end_to_end (alloc : gset loc -> loc) (e : process_env) :
  exists (l : loc) (w' : world),
    main alloc (process_start e) = Normal EXIT_SUCCESS w' /\
    trace w' = [EvCreate (Some l);
                EvLog l (lit "Application started");
                EvLog l (lit "Hello from cpp-app-template!");
                EvLog l (lit "Application finished");
                EvDestroy l] /\
    cout w' = lit "Application started" ++ [LF]
              ++ lit "Hello from cpp-app-template!" ++ [LF]
              ++ lit "Application finished" ++ [LF] /\
    lines (cout w') = [lit "Application started";
                       lit "Hello from cpp-app-template!";
                       lit "Application finished"] /\
    run_process alloc e =
      Some {| stdout := cout w'; exit_status := Exited EXIT_SUCCESS |}.
Proof.
  exists (alloc (dom (heap (process_start e)))).
  eexists. split; [apply main_run |].
  split; [reflexivity |].
  split; [reflexivity |].
  split; [reflexivity |].
  unfold run_process. by rewrite main_run.
Qed.

(** C6: the exit status is the success indicator (0) on every run; from
    any starting world [main] returns [EXIT_SUCCESS], it neither throws nor
    runs into undefined behaviour. *)
Theorem main_always_exits_success (alloc : gset loc -> loc) :
  (forall w : world, exists w', main alloc w = Normal EXIT_SUCCESS w') /\
  (forall e : process_env,
     exit_status <$> run_process alloc e = Some (Exited EXIT_SUCCESS)) /\
  EXIT_SUCCESS = 0%Z.
Proof.
  split; [| split; [| reflexivity]].
  - intros w. eexists. apply main_run.
  - intros e. unfold run_process. by rewrite main_run.
Qed.

(** C9: the program is deterministic. Whatever the command line, the
    environment, standard input and the addresses the allocator hands out,
    a run completes with the same standard output and the same exit
    status. *)
Theorem run_process_deterministic
    (alloc1 alloc2 : gset loc -> loc) (e1 e2 : process_env) :
  is_Some (run_process alloc1 e1) /\
  run_process alloc1 e1 = run_process alloc2 e2.
Proof.
  unfold run_process. rewrite !main_run. split; [by eexists | reflexivity].
Qed.

(** ** Logging *)

Lemma eqb_LF_false (b : byte) : b <> LF -> Byte.eqb b LF = false.
Proof.
  intros Hb. destruct (Byte.eqb b LF) eqn:E; [| reflexivity].
  by apply Byte.byte_dec_bl in E.
Qed.

(** A text without LF followed by LF is one line. *)
Lemma lines_app_LF (m rest : list byte) :
  LF ∉ m -> lines (m ++ LF :: rest) = m :: lines rest.
Proof.
  induction m as [| b m IH]; intros Hm; simpl.
  - reflexivity.
  - apply not_elem_of_cons in Hm as [Hb Hm].
    rewrite eqb_LF_false by congruence. by rewrite IH.
Qed.

Lemma lines_written (messages : list string_view) :
  Forall (fun m => LF ∉ m) messages -> lines (written messages) = messages.
Proof.
  unfold written. induction 1 as [| m ms Hm _ IH]; simpl; [reflexivity |].
  rewrite <- app_assoc. simpl. rewrite lines_app_LF by assumption.
  by rewrite IH.
Qed.

(** The loop of the scenario test, on a live logger. *)
Lemma log_each_run (l : loc) (obj : object) (messages : list string_view) :
  forall w : world,
    heap w !! l = Some obj ->
    log_each (Some l) messages w =
      Normal tt {| cout := cout w ++ written messages; heap := heap w;
                   trace := trace w ++ map (EvLog l) messages;
                   penv := penv w |}.
Proof.
  induction messages as [| m ms IH]; intros w Hl; simpl.
  - unfold ret, written. simpl. rewrite !app_nil_r. by rewrite world_eta.
  - unfold bind. rewrite (log_live l m w obj Hl).
    rewrite IH by exact Hl. simpl. unfold written. simpl.
    by rewrite <- !app_assoc.
Qed.

(** C2: for every valid text message [m] (the empty one, multi-line ones
    and ones with control characters included) [log(m)] on a console logger
    raises no error and appends to standard output the bytes of [m] followed
    by exactly one newline; nothing else changes. *)
Theorem log_appends_message_and_one_newline
    (w : world) (l : loc) (m : string_view) :
  heap w !! l = Some (Object ConsoleLogger) ->
  valid_utf8 m = true ->
  exists w' : world,
    log (Some l) m w = Normal tt w' /\
    cout w' = cout w ++ m ++ [LF] /\
    heap w' = heap w /\
    penv w' = penv w.
Proof.
  intros Hl _. eexists. split; [by apply log_live with (Object ConsoleLogger) |].
  by repeat split.
Qed.

(** C10: [log] validates, escapes, filters and transforms nothing: for
    every byte sequence [m], valid UTF-8 or not, the bytes written are
    those of [m], unchanged and in place, followed by the one newline. *)
Theorem log_writes_bytes_verbatim
    (w : world) (l : loc) (obj : object) (m : string_view) :
  heap w !! l = Some obj ->
  exists w' : world,
    log (Some l) m w = Normal tt w' /\
    cout w' = cout w ++ m ++ [LF] /\
    take (length m) (drop (length (cout w)) (cout w')) = m /\
    drop (length (cout w) + length m) (cout w') = [LF] /\
    (forall (i : nat) (b : byte),
       m !! i = Some b -> cout w' !! (length (cout w) + i)%nat = Some b).
Proof.
  intros Hl. eexists. split; [by apply log_live with obj |]. simpl.
  split; [reflexivity |]. split; [| split].
  - rewrite drop_app_length. by rewrite take_app_length.
  - rewrite <- drop_drop, drop_app_length. by rewrite drop_app_length.
  - intros i b Hi. rewrite lookup_app_r by lia.
    replace (length (cout w) + i - length (cout w))%nat with i by lia.
    by apply lookup_app_l_Some.
Qed.

(** C4, as the code has it: logging [m1 ... mk] in order, none of them
    containing a newline, produces exactly [k] output lines, in the same
    order, line [i] being [mi]. *)
Theorem log_each_lines
    (w : world) (l : loc) (obj : object) (messages : list string_view) :
  heap w !! l = Some obj ->
  Forall (fun m => LF ∉ m) messages ->
  exists (w' : world) (out : list byte),
    log_each (Some l) messages w = Normal tt w' /\
    cout w' = cout w ++ out /\
    lines out = messages /\
    length (lines out) = length messages.
Proof.
  intros Hl Hm. eexists. exists (written messages).
  split; [by apply log_each_run with obj |].
  split; [reflexivity |].
  rewrite lines_written by assumption. by split.
Qed.

(** ** The factory *)

(** C7: the construction failure documented in [LoggerFactory.hpp]
    ([std::runtime_error]) is never raised by the console implementation:
    every call of [createDefaultLogger] completes normally, with a pointer
    to a live [ConsoleLogger]. *)
Theorem createDefaultLogger_never_throws (alloc : gset loc -> loc) (w : world) :
  (exists (l : loc) (w' : world),
     createDefaultLogger alloc w = Normal (Some l) w' /\
     heap w' !! l = Some (Object ConsoleLogger)) /\
  (forall (what : string) (w' : world),
     createDefaultLogger alloc w <> Thrown (runtime_error what) w') /\
  createDefaultLogger alloc w <> Undefined.
Proof.
  rewrite createDefaultLogger_run. split; [| split].
  - eexists _, _. split; [reflexivity |]. simpl. apply lookup_insert_eq.
  - intros what w'. discriminate.
  - discriminate.
Qed.

Section FreshAllocator.

(** [operator new] never returns storage that is still in use. *)
Variable alloc : gset loc -> loc.
Hypothesis alloc_fresh : forall X : gset loc, alloc X ∉ X.

Lemma alloc_lookup_None (h : gmap loc object) : h !! alloc (dom h) = None.
Proof. apply not_elem_of_dom, alloc_fresh. Qed.

(** [n] calls in a row: [n] new addresses, pairwise different, none of them
    in use before, all of them live afterwards; nothing is written. *)
Lemma createDefaultLogger_n_run (n : nat) :
  forall w : world,
    exists (ls : list loc) (w' : world),
      createDefaultLogger_n alloc n w = Normal (Some <$> ls) w' /\
      length ls = n /\
      NoDup ls /\
      (forall l, l ∈ ls -> l ∉ dom (heap w)) /\
      (forall l, l ∈ ls -> heap w' !! l = Some (Object ConsoleLogger)) /\
      heap w ⊆ heap w' /\
      size (heap w') = (size (heap w) + n)%nat /\
      cout w' = cout w.
Proof.
  induction n as [| n IH]; intros w; simpl.
  - exists [], w. unfold ret. simpl.
    split; [reflexivity |]. split; [reflexivity |]. split; [constructor |].
    split; [intros l Hl; by apply elem_of_nil in Hl |].
    split; [intros l Hl; by apply elem_of_nil in Hl |].
    split; [reflexivity |]. split; [lia | reflexivity].
  - unfold bind at 1. rewrite createDefaultLogger_run.
    set (l0 := alloc (dom (heap w))).
    set (w1 := {| cout := cout w; heap := <[l0:=Object ConsoleLogger]> (heap w);
                  trace := trace w ++ [EvCreate (Some l0)]; penv := penv w |}).
    destruct (IH w1) as (ls & w' & Hrun & Hlen & Hnd & Hnew & Hlive & Hsub & Hsz & Hout).
    assert (Hl0 : heap w !! l0 = None) by apply alloc_lookup_None.
    exists (l0 :: ls), w'. unfold bind. rewrite Hrun. unfold ret. simpl.
    split; [reflexivity |]. split; [by rewrite Hlen |].
    assert (Hl0ls : l0 ∉ ls).
    { intros Hin. apply (Hnew l0 Hin). simpl. rewrite dom_insert_L. set_solver. }
    split; [by constructor |]. split; [| split; [| split; [| split]]].
    + intros l [-> | Hin]%elem_of_cons.
      * apply alloc_fresh.
      * intros Hd. apply (Hnew l Hin). simpl. rewrite dom_insert_L. set_solver.
    + intros l [-> | Hin]%elem_of_cons.
      * apply (lookup_weaken (heap w1)); [| exact Hsub]. simpl.
        apply lookup_insert_eq.
      * by apply Hlive.
    + transitivity (heap w1); [| exact Hsub]. simpl. by apply insert_subseteq.
    + rewrite Hsz. simpl. rewrite map_size_insert_None by exact Hl0. lia.
    + by rewrite Hout.
Qed.

(** C3: the factory never returns an empty pointer: for every [n], [n]
    calls in sequence yield [n] non-null pointers to [n] different live
    logger instances. *)
Theorem createDefaultLogger_n_valid (n : nat) (w : world) :
  exists (ps : list unique_ptr) (w' : world),
    createDefaultLogger_n alloc n w = Normal ps w' /\
    length ps = n /\
    Forall (fun p => p <> nullptr) ps /\
    Forall (fun p => exists l, p = Some l /\
                               heap w' !! l = Some (Object ConsoleLogger)) ps /\
    NoDup ps /\
    size (heap w') = (size (heap w) + n)%nat.
Proof.
  destruct (createDefaultLogger_n_run n w)
    as (ls & w' & Hrun & Hlen & Hnd & _ & Hlive & _ & Hsz & _).
  exists (Some <$> ls), w'. split; [exact Hrun |].
  split; [by rewrite length_fmap |].
  split; [| split; [| split]].
  - apply Forall_fmap, Forall_forall. intros l _. discriminate.
  - apply Forall_fmap, Forall_forall. intros l Hl. exists l. split; [done |].
    by apply Hlive.
  - apply NoDup_fmap_2; [| exact Hnd]. intros x y. congruence.
  - exact Hsz.
Qed.

(** C5: every call of the factory returns a new instance. If [a] is an
    instance already held, the instance [b] returned by the next call is a
    different object; the two share no object state: logging through one
    changes no object, and destroying one leaves the other alive and as it
    was. *)
Theorem factory_instances_distinct_and_independent
    (w : world) (a : loc) (obj : object) :
  heap w !! a = Some obj ->
  exists (b : loc) (w' : world),
    createDefaultLogger alloc w = Normal (Some b) w' /\
    a <> b /\
    heap w' !! a = Some obj /\
    heap w' !! b = Some (Object ConsoleLogger) /\
    (forall m, exists w'', log (Some a) m w' = Normal tt w'' /\ heap w'' = heap w') /\
    (forall m, exists w'', log (Some b) m w' = Normal tt w'' /\ heap w'' = heap w') /\
    (exists w'', unique_ptr_destroy (Some a) w' = Normal tt w'' /\
                 heap w'' !! a = None /\
                 heap w'' !! b = Some (Object ConsoleLogger)) /\
    (exists w'', unique_ptr_destroy (Some b) w' = Normal tt w'' /\
                 heap w'' !! b = None /\
                 heap w'' !! a = Some obj).
Proof.
  intros Ha. rewrite createDefaultLogger_run.
  set (b := alloc (dom (heap w))).
  assert (Hab : a <> b).
  { intros ->. pose proof (alloc_lookup_None (heap w)) as Hn. fold b in Hn. congruence. }
  eexists b, _. split; [reflexivity |]. simpl.
  assert (Ha' : <[b:=Object ConsoleLogger]> (heap w) !! a = Some obj)
    by (by rewrite lookup_insert_ne).
  assert (Hb' : <[b:=Object ConsoleLogger]> (heap w) !! b = Some (Object ConsoleLogger))
    by apply lookup_insert_eq.
  split; [exact Hab |]. split; [exact Ha' |]. split; [exact Hb' |].
  split; [| split; [| split]].
  - intros m. eexists. split; [by apply log_live with obj |]. reflexivity.
  - intros m. eexists. split; [by apply log_live with (Object ConsoleLogger) |].
    reflexivity.
  - eexists. split; [by apply unique_ptr_destroy_live with obj |]. simpl. split.
    + apply lookup_delete_eq.
    + by rewrite lookup_delete_ne.
  - eexists. split; [by apply unique_ptr_destroy_live with (Object ConsoleLogger) |].
    simpl. split.
    + apply lookup_delete_eq.
    + rewrite lookup_delete_ne by congruence. exact Ha'.
Qed.

End FreshAllocator.

(** ** No copies, no moves *)

Lemma factory_live_snoc (tr : list event) (e : event) :
  factory_live (tr ++ [e]) = factory_step (factory_live tr) e.
Proof. unfold factory_live. by rewrite fold_left_app. Qed.

(** The four ways to duplicate or relocate an [ILogger] all need a deleted
    member. *)
Lemma duplication_is_ill_formed (s : stmt) :
  compiles ILogger_special s = true -> duplicates_or_relocates s = false.
Proof. by destruct s. Qed.

Lemma process_start_all_from_factory (e : process_env) :
  all_from_factory (process_start e).
Proof. unfold all_from_factory. simpl. apply dom_empty_L. Qed.

(** One well-formed statement keeps the heap made of factory instances. *)
Lemma exec_all_from_factory (alloc : gset loc -> loc) (s : stmt) (w w' : world) :
  compiles ILogger_special s = true ->
  all_from_factory w ->
  exec alloc s w = Normal tt w' ->
  all_from_factory w'.
Proof.
  unfold all_from_factory. intros Hc Hinv Hrun.
  destruct s as [| l m | l | src | src | dst src | dst src]; try discriminate Hc;
    cbn [exec] in Hrun.
  - unfold bind in Hrun. rewrite createDefaultLogger_run in Hrun.
    injection Hrun as <-. simpl.
    by rewrite factory_live_snoc, dom_insert_L, Hinv.
  - destruct (heap w !! l) as [obj |] eqn:Hl.
    + rewrite (ILogger_log_live l m w obj Hl) in Hrun. injection Hrun as <-.
      simpl. by rewrite factory_live_snoc.
    + by rewrite ILogger_log_dead in Hrun.
  - destruct (heap w !! l) as [obj |] eqn:Hl.
    + rewrite (unique_ptr_destroy_live l w obj Hl) in Hrun. injection Hrun as <-.
      simpl. by rewrite factory_live_snoc, dom_delete_L, Hinv.
    + unfold unique_ptr_destroy, bind, gets in Hrun. by rewrite Hl in Hrun.
Qed.

(** A statement on a library logger leaves the history and the heap of the
    library in step, whatever else is allocated. *)
Lemma xexec_all_from_factory
    (alloc : gset loc -> loc) (s : xstmt) (xw xw' : xworld) :
  xcompiles ILogger_special s = true ->
  all_from_factory (lib xw) ->
  xexec alloc s xw = Some xw' ->
  all_from_factory (lib xw').
Proof.
  intros Hc Hinv Hrun. destruct s as [s | c | l m | l]; simpl in Hrun.
  - destruct (exec _ s (lib xw)) as [[] w1 | |] eqn:Hstep; try discriminate Hrun.
    injection Hrun as <-. simpl.
    exact (exec_all_from_factory _ s (lib xw) w1 Hc Hinv Hstep).
  - by injection Hrun as <-.
  - destruct (derived xw !! l); [| discriminate Hrun]. by injection Hrun as <-.
  - destruct (derived xw !! l); [| discriminate Hrun]. by injection Hrun as <-.
Qed.

(** C8, as the code has it: an instance that the factory produced cannot
    be duplicated or relocated through the public interface, [ILogger]
    having its copy and move constructors and assignments deleted: a
    well-formed client, also one with logger classes of its own, contains
    no such statement, and after it has run every live logger of the
    library is one that the factory produced. *)
Theorem library_instances_only_from_factory
    (alloc : gset loc -> loc) (prog : list xstmt) (xw xw' : xworld) :
  Forall (fun s => xcompiles ILogger_special s = true) prog ->
  all_from_factory (lib xw) ->
  xexec_all alloc prog xw = Some xw' ->
  Forall (fun s => xduplicates_or_relocates s = false) prog /\
  all_from_factory (lib xw').
Proof.
  intros Hc Hinv Hrun. split.
  - eapply Forall_impl; [exact Hc |]. intros [s | c | l m | l] Hs; try reflexivity.
    by apply duplication_is_ill_formed.
  - revert xw Hinv Hrun. induction Hc as [| s rest Hs _ IH]; intros xw Hinv Hrun.
    + simpl in Hrun. by injection Hrun as <-.
    + simpl in Hrun.
      destruct (xexec alloc s xw) as [xw1 |] eqn:Hstep; [| discriminate Hrun].
      apply (IH xw1); [| exact Hrun].
      by apply (xexec_all_from_factory alloc s xw xw1).
Qed.

(** ** Concrete runs *)

Example createDefaultLogger_first_call :
  createDefaultLogger fresh (process_start env0)
  = Normal (Some 1%positive) world_with_logger.
Proof. vm_compute. reflexivity. Qed.

Lemma log_appends_message_and_one_newline_witness :
  heap world_with_logger !! 1%positive = Some (Object ConsoleLogger) /\
  valid_utf8 special_chars_message = true /\
  exists w' : world,
    log (Some 1%positive) special_chars_message world_with_logger = Normal tt w' /\
    cout w' = cout world_with_logger ++ special_chars_message ++ [LF] /\
    heap w' = heap world_with_logger /\
    penv w' = penv world_with_logger.
Proof.
  split; [reflexivity |]. split; [reflexivity |].
  apply (log_appends_message_and_one_newline
           world_with_logger 1%positive special_chars_message); reflexivity.
Defined.

(** Two bytes that are not UTF-8 go out as they are. *)
Lemma log_writes_bytes_verbatim_witness :
  valid_utf8 [xff; xfe] = false /\
  heap world_with_logger !! 1%positive = Some (Object ConsoleLogger) /\
  exists w' : world,
    log (Some 1%positive) [xff; xfe] world_with_logger = Normal tt w' /\
    cout w' = cout world_with_logger ++ [xff; xfe] ++ [LF] /\
    take (length [xff; xfe]) (drop (length (cout world_with_logger)) (cout w'))
      = [xff; xfe] /\
    drop (length (cout world_with_logger) + length [xff; xfe]) (cout w') = [LF] /\
    (forall (i : nat) (b : byte),
       [xff; xfe] !! i = Some b ->
       cout w' !! (length (cout world_with_logger) + i)%nat = Some b).
Proof.
  split; [reflexivity |]. split; [reflexivity |].
  apply (log_writes_bytes_verbatim
           world_with_logger 1%positive (Object ConsoleLogger) [xff; xfe]).
  reflexivity.
Defined.

Lemma log_each_lines_witness :
  heap world_with_logger !! 1%positive = Some (Object ConsoleLogger) /\
  Forall (fun m => LF ∉ m) [lit "User login attempt"; []; lit "Session created"] /\
  exists (w' : world) (out : list byte),
    log_each (Some 1%positive)
      [lit "User login attempt"; []; lit "Session created"] world_with_logger
      = Normal tt w' /\
    cout w' = cout world_with_logger ++ out /\
    lines out = [lit "User login attempt"; []; lit "Session created"] /\
    length (lines out) = length [lit "User login attempt"; []; lit "Session created"].
Proof.
  assert (H : Forall (fun m => LF ∉ m)
                [lit "User login attempt"; []; lit "Session created"]).
  { repeat constructor; intros Hin; vm_compute in Hin;
      repeat (apply elem_of_cons in Hin as [Hin | Hin]; [discriminate Hin |]);
      by apply elem_of_nil in Hin. }
  split; [reflexivity |]. split; [exact H |].
  apply (log_each_lines world_with_logger 1%positive (Object ConsoleLogger));
    [reflexivity | exact H].
Defined.

(** C4 as stated fails: one call with the three-line message of the unit
    tests produces three output lines, not one. *)
Lemma log_each_multi_line_counterexample :
  exists w' : world,
    log_each (Some 1%positive) [three_line_message] world_with_logger
      = Normal tt w' /\
    cout w' = cout world_with_logger ++ three_line_message ++ [LF] /\
    lines (three_line_message ++ [LF]) = [lit "Line 1"; lit "Line 2"; lit "Line 3"] /\
    lines (three_line_message ++ [LF]) <> [three_line_message] /\
    length (lines (three_line_message ++ [LF])) <> length [three_line_message].
Proof.
  eexists. split; [vm_compute; reflexivity |].
  split; [reflexivity |]. split; [reflexivity |].
  split; [discriminate | vm_compute; lia].
Qed.

Lemma createDefaultLogger_n_valid_witness :
  (forall X : gset loc, fresh X ∉ X) /\
  exists (ps : list unique_ptr) (w' : world),
    createDefaultLogger_n fresh 3 (process_start env0) = Normal ps w' /\
    length ps = 3%nat /\
    Forall (fun p => p <> nullptr) ps /\
    Forall (fun p => exists l, p = Some l /\
                               heap w' !! l = Some (Object ConsoleLogger)) ps /\
    NoDup ps /\
    size (heap w') = (size (heap (process_start env0)) + 3)%nat.
Proof.
  split; [apply is_fresh |].
  apply (createDefaultLogger_n_valid fresh is_fresh 3 (process_start env0)).
Defined.

Lemma factory_instances_distinct_and_independent_witness :
  (forall X : gset loc, fresh X ∉ X) /\
  heap world_with_logger !! 1%positive = Some (Object ConsoleLogger) /\
  exists (b : loc) (w' : world),
    createDefaultLogger fresh world_with_logger = Normal (Some b) w' /\
    1%positive <> b /\
    heap w' !! 1%positive = Some (Object ConsoleLogger) /\
    heap w' !! b = Some (Object ConsoleLogger) /\
    (forall m, exists w'', log (Some 1%positive) m w' = Normal tt w'' /\
                           heap w'' = heap w') /\
    (forall m, exists w'', log (Some b) m w' = Normal tt w'' /\ heap w'' = heap w') /\
    (exists w'', unique_ptr_destroy (Some 1%positive) w' = Normal tt w'' /\
                 heap w'' !! 1%positive = None /\
                 heap w'' !! b = Some (Object ConsoleLogger)) /\
    (exists w'', unique_ptr_destroy (Some b) w' = Normal tt w'' /\
                 heap w'' !! b = None /\
                 heap w'' !! 1%positive = Some (Object ConsoleLogger)).
Proof.
  split; [apply is_fresh |]. split; [reflexivity |].
  apply (factory_instances_distinct_and_independent fresh is_fresh
           world_with_logger 1%positive (Object ConsoleLogger)).
  reflexivity.
Defined.

(** Two loggers, ["x"] through the first and ["y"] through the second:
    two lines, ["x"] then ["y"]. *)
Example two_loggers_x_then_y :
  exists (w' : world),
    (a <- createDefaultLogger fresh ;;
     b <- createDefaultLogger fresh ;;
     log a (lit "x") ;;;
     log b (lit "y")) (process_start env0) = Normal tt w' /\
    cout w' = lit "x" ++ [LF] ++ lit "y" ++ [LF] /\
    lines (cout w') = [lit "x"; lit "y"].
Proof. eexists. split; [vm_compute; reflexivity |]. by split. Qed.

(** The world the two-component client leaves behind. *)
Example two_component_client_run :
  exec_all fresh two_component_client (process_start env0)
  = Normal tt
      {| cout := lit "Component A: Processing task" ++ [LF]
                 ++ lit "Component B: Processing task" ++ [LF];
         heap := {[ 2%positive := Object ConsoleLogger ]};
         trace := [EvCreate (Some 1%positive); EvCreate (Some 2%positive);
                   EvLog 1%positive (lit "Component A: Processing task");
                   EvLog 2%positive (lit "Component B: Processing task");
                   EvDestroy 1%positive];
         penv := env0 |}.
Proof. vm_compute. reflexivity. Qed.

Lemma library_instances_only_from_factory_witness :
  Forall (fun s => xcompiles ILogger_special s = true) mixed_client /\
  all_from_factory (lib (xstart env0)) /\
  exists xw' : xworld,
    xexec_all fresh mixed_client (xstart env0) = Some xw' /\
    Forall (fun s => xduplicates_or_relocates s = false) mixed_client /\
    all_from_factory (lib xw').
Proof.
  assert (Hc : Forall (fun s => xcompiles ILogger_special s = true) mixed_client)
    by (repeat constructor).
  split; [exact Hc |].
  split; [apply process_start_all_from_factory |].
  eexists. split; [vm_compute; reflexivity |].
  apply (library_instances_only_from_factory fresh mixed_client
           (xstart env0) _ Hc (process_start_all_from_factory env0)).
  vm_compute. reflexivity.
Defined.

(** C8 as stated fails: a client class derived from [ILogger] is
    well-formed ([ILogger()] is public and defaulted), and its object is a
    live logger instance that no call of the factory produced. *)
Lemma client_derived_instance_counterexample :
  Forall (fun s => xcompiles ILogger_special s = true) [XNewDerived null_logger] /\
  exists xw' : xworld,
    xexec_all fresh [XNewDerived null_logger] (xstart env0) = Some xw' /\
    in_use xw' = {[ 1%positive ]} /\
    factory_live (trace (lib xw')) = ∅ /\
    ~ every_instance_from_factory xw'.
Proof.
  split; [repeat constructor |].
  eexists. split; [vm_compute; reflexivity |].
  split; [vm_compute; reflexivity |]. split; [reflexivity |].
  unfold every_instance_from_factory. intros H.
  apply (f_equal size) in H. vm_compute in H. discriminate H.
Qed.

(** * More of the code *)

(** ** Sequences of log calls *)

Lemma log_not_live (p : unique_ptr) (m : string_view) (w : world) :
  ~ owns_live p w -> log p m w = Undefined.
Proof.
  intros Hn. destruct p as [l |]; [| reflexivity].
  unfold log, arrow, bind, ret. apply ILogger_log_dead.
  destruct (heap w !! l) eqn:Hl; [| reflexivity].
  exfalso. apply Hn. exists l. by rewrite Hl.
Qed.

(** X2: the loop over the messages is defined exactly when there is
    nothing to log or the pointer owns a live logger; it is undefined
    behaviour on an empty or dangling pointer as soon as there is one
    message, and it never throws. *)
Theorem log_each_defined (p : unique_ptr) (messages : list string_view) (w : world) :
  match log_each p messages w with
  | Normal _ w' => (messages = [] \/ owns_live p w) /\
                   cout w' = cout w ++ written messages
  | Thrown _ _ => False
  | Undefined => messages <> [] /\ ~ owns_live p w
  end.
Proof.
  destruct messages as [| m ms].
  - simpl. unfold ret, written. simpl. split; [by left | by rewrite app_nil_r].
  - destruct (heap w !! default 1%positive p) as [obj |] eqn:Hl;
      destruct p as [l |]; simpl in Hl.
    + rewrite (log_each_run l obj (m :: ms) w Hl). split; [| reflexivity].
      right. exists l. by rewrite Hl.
    + cbn [log_each]. unfold bind. rewrite log_not_live; [split; [done |] |];
        intros (l & [=] & _).
    + cbn [log_each]. unfold bind.
      assert (Hn : ~ owns_live (Some l) w).
      { intros (l' & [= <-] & [o Ho]). congruence. }
      rewrite log_not_live by exact Hn. by split.
    + cbn [log_each]. unfold bind. rewrite log_not_live; [split; [done |] |];
        intros (l & [=] & _).
Qed.

Lemma written_app (xs ys : list string_view) :
  written (xs ++ ys) = written xs ++ written ys.
Proof. unfold written. by rewrite map_app, concat_app. Qed.

(** What one statement of a client writes. *)
Lemma exec_cout (alloc : gset loc -> loc) (s : stmt) (w w' : world) :
  exec alloc s w = Normal tt w' ->
  cout w' = cout w ++ written (logged_messages [s]) /\ penv w' = penv w.
Proof.
  intros Hrun.
  destruct s as [| l m | l | src | src | dst src | dst src]; cbn [exec] in Hrun;
    unfold logged_messages, written; simpl; rewrite ?app_nil_r.
  - unfold bind in Hrun. rewrite createDefaultLogger_run in Hrun.
    by injection Hrun as <-.
  - destruct (heap w !! l) as [obj |] eqn:Hl.
    + rewrite (ILogger_log_live l m w obj Hl) in Hrun. by injection Hrun as <-.
    + by rewrite ILogger_log_dead in Hrun.
  - destruct (heap w !! l) as [obj |] eqn:Hl.
    + rewrite (unique_ptr_destroy_live l w obj Hl) in Hrun. by injection Hrun as <-.
    + unfold unique_ptr_destroy, bind, gets in Hrun. by rewrite Hl in Hrun.
  - unfold construct_from, bind, gets in Hrun.
    destruct (heap w !! src); [| discriminate Hrun]. by injection Hrun as <-.
  - unfold construct_from, bind, gets in Hrun.
    destruct (heap w !! src); [| discriminate Hrun]. by injection Hrun as <-.
  - unfold assign_from, bind, gets in Hrun.
    destruct (heap w !! src), (heap w !! dst); try discriminate Hrun.
    by injection Hrun as <-.
  - unfold assign_from, bind, gets in Hrun.
    destruct (heap w !! src), (heap w !! dst); try discriminate Hrun.
    by injection Hrun as <-.
Qed.

(** X3: whatever a client does with however many loggers, standard output
    grows by exactly the messages it logged, each followed by one newline,
    in the order of the calls; which instance a message went through does
    not show, and creating or destroying loggers writes nothing. *)
Theorem exec_all_cout (alloc : gset loc -> loc) (prog : list stmt) (w w' : world) :
  exec_all alloc prog w = Normal tt w' ->
  cout w' = cout w ++ written (logged_messages prog) /\ penv w' = penv w.
Proof.
  revert w. induction prog as [| s rest IH]; intros w Hrun.
  - simpl in Hrun. unfold ret in Hrun. injection Hrun as <-.
    unfold written. simpl. by rewrite app_nil_r.
  - cbn [exec_all] in Hrun. unfold bind in Hrun.
    destruct (exec alloc s w) as [[] w1 | |] eqn:Hstep; try discriminate Hrun.
    apply exec_cout in Hstep as [Hc Hp]. apply IH in Hrun as [Hc' Hp'].
    split; [| congruence].
    rewrite Hc', Hc. change (s :: rest) with ([s] ++ rest).
    unfold logged_messages. rewrite flat_map_app. fold (logged_messages [s]).
    fold (logged_messages rest). by rewrite written_app, <- app_assoc.
Qed.

Section Lifetimes.

Variable alloc : gset loc -> loc.
Hypothesis alloc_fresh : forall X : gset loc, alloc X ∉ X.

(** X4: a logger obtained from the factory and then released leaves the
    heap exactly as it was and writes nothing: the factory and the owning
    pointer together leak nothing and free nothing else. *)
Theorem create_destroy_round_trip (w : world) :
  exists (p : unique_ptr) (w1 w2 : world),
    createDefaultLogger alloc w = Normal p w1 /\
    unique_ptr_destroy p w1 = Normal tt w2 /\
    heap w2 = heap w /\ cout w2 = cout w /\ penv w2 = penv w.
Proof.
  eexists _, _, _. split; [apply createDefaultLogger_run |].
  split.
  - apply unique_ptr_destroy_live with (Object ConsoleLogger). simpl.
    apply lookup_insert_eq.
  - simpl. split; [| done].
    apply delete_insert_id, not_elem_of_dom, alloc_fresh.
Qed.

(** X5: [main] releases the logger it created: when it returns, the live
    objects are those that were live before, and the process environment
    is untouched. *)
Theorem main_leaves_heap (w : world) :
  exists w' : world,
    main alloc w = Normal EXIT_SUCCESS w' /\
    heap w' = heap w /\ penv w' = penv w.
Proof.
  eexists. split; [apply main_run |]. simpl. split; [| done].
  apply delete_insert_id, not_elem_of_dom, alloc_fresh.
Qed.

End Lifetimes.

(** ** The test fixtures *)

Section Fixtures.

Import AppLoggingIntSuite.

Variable alloc : gset loc -> loc.
Hypothesis alloc_fresh : forall X : gset loc, alloc X ∉ X.

Lemma logger_log_is_log (fx : fixture) (m : string_view) :
  logger_log fx m = log (logger_ fx) m.
Proof. reflexivity. Qed.

Lemma ScenarioMessageSequence_is_log_each (fx : fixture) (messages : list string_view) :
  forall w, ScenarioMessageSequence fx messages w = log_each (logger_ fx) messages w.
Proof.
  induction messages as [| m ms IH]; intros w; simpl; [reflexivity |].
  rewrite logger_log_is_log. unfold bind.
  destruct (log (logger_ fx) m w); try reflexivity. apply IH.
Qed.

Lemma SetUp_run (fx : fixture) (w : world) :
  fixture_ok fx w ->
  let l := alloc (dom (heap w)) in
  SetUp alloc fx w =
    Normal {| logger_ := Some l |}
      {| cout := cout w;
         heap := match logger_ fx with
                 | Some old => delete old (<[l := Object ConsoleLogger]> (heap w))
                 | None => <[l := Object ConsoleLogger]> (heap w)
                 end;
         trace := match logger_ fx with
                  | Some old => trace w ++ [EvCreate (Some l); EvDestroy old]
                  | None => trace w ++ [EvCreate (Some l)]
                  end;
         penv := penv w |}.
Proof.
  intros Hok l. unfold SetUp. unfold bind at 1. rewrite createDefaultLogger_run.
  fold l. unfold unique_ptr_reset. destruct fx as [[old |]]; cbn [logger_] in *.
  - destruct (Hok old eq_refl) as [obj Hold].
    assert (Hne : l <> old).
    { intros <-. pose proof (alloc_fresh (dom (heap w))) as Hf.
      apply not_elem_of_dom in Hf. fold l in Hf. congruence. }
    unfold bind at 1. unfold bind at 1.
    erewrite unique_ptr_destroy_live
      by (simpl; rewrite lookup_insert_ne by exact Hne; exact Hold).
    unfold ret. simpl. by rewrite <- app_assoc.
  - reflexivity.
Qed.

(** X6: [SetUp] leaves the fixture with a live logger of its own, at an
    address that was not in use, and [hasLogger()] true. If the fixture
    already owned a logger, that one is deleted, so repeated [SetUp] does
    not leak; no other object is touched and nothing is written. *)
Theorem SetUp_establishes (fx : fixture) (w : world) :
  fixture_ok fx w ->
  exists (l : loc) (w' : world),
    SetUp alloc fx w = Normal {| logger_ := Some l |} w' /\
    hasLogger {| logger_ := Some l |} = true /\
    fixture_ok {| logger_ := Some l |} w' /\
    heap w' !! l = Some (Object ConsoleLogger) /\
    (l ∉ dom (heap w)) /\
    (forall old, logger_ fx = Some old -> heap w' !! old = None) /\
    (forall k, k <> l -> logger_ fx <> Some k -> heap w' !! k = heap w !! k) /\
    cout w' = cout w.
Proof.
  intros Hok. exists (alloc (dom (heap w))). eexists.
  split; [by apply SetUp_run |]. set (l := alloc (dom (heap w))).
  assert (Hl : l ∉ dom (heap w)) by apply alloc_fresh.
  assert (Hne : forall old, logger_ fx = Some old -> l <> old).
  { intros old Hold <-. destruct (Hok l Hold) as [obj Hobj].
    apply not_elem_of_dom in Hl. congruence. }
  assert (Hlive : match logger_ fx with
                  | Some old => delete old (<[l:=Object ConsoleLogger]> (heap w))
                  | None => <[l:=Object ConsoleLogger]> (heap w)
                  end !! l = Some (Object ConsoleLogger)).
  { destruct (logger_ fx) as [old |] eqn:E.
    - rewrite lookup_delete_ne by (intros ->; by apply (Hne l)).
      apply lookup_insert_eq.
    - apply lookup_insert_eq. }
  split; [reflexivity |]. simpl.
  split; [intros k [= <-]; simpl; by rewrite Hlive |].
  split; [exact Hlive |]. split; [exact Hl |]. split; [| split; [| reflexivity]].
  - intros old Hold. rewrite Hold. apply lookup_delete_eq.
  - intros k Hkl Hk. destruct (logger_ fx) as [old |].
    + rewrite lookup_delete_ne by congruence. by rewrite lookup_insert_ne.
    + by rewrite lookup_insert_ne.
Qed.

Lemma TearDown_run (fx : fixture) (w : world) :
  fixture_ok fx w ->
  TearDown fx w =
    Normal fixture_new
      match logger_ fx with
      | Some l => {| cout := cout w; heap := delete l (heap w);
                     trace := trace w ++ [EvDestroy l]; penv := penv w |}
      | None => w
      end.
Proof.
  intros Hok. unfold TearDown, unique_ptr_reset.
  destruct fx as [[l |]]; cbn [logger_] in *; [| reflexivity].
  destruct (Hok l eq_refl) as [obj Hl].
  unfold bind at 1. unfold bind at 1.
  by rewrite (unique_ptr_destroy_live l w obj Hl).
Qed.

(** X7: [TearDown] deletes the fixture's logger and leaves the fixture
    empty: [hasLogger()] is false, no other object is touched, nothing is
    written, a second [TearDown] changes nothing, and [logger().log(m)] is
    now undefined behaviour. *)
Theorem TearDown_releases (fx : fixture) (w : world) :
  fixture_ok fx w ->
  exists w' : world,
    TearDown fx w = Normal fixture_new w' /\
    hasLogger fixture_new = false /\
    (forall l, logger_ fx = Some l -> heap w' !! l = None) /\
    (forall k, logger_ fx <> Some k -> heap w' !! k = heap w !! k) /\
    cout w' = cout w /\
    TearDown fixture_new w' = Normal fixture_new w' /\
    (forall m, logger_log fixture_new m w' = Undefined).
Proof.
  intros Hok. eexists. split; [by apply TearDown_run |].
  split; [reflexivity |].
  split; [| split; [| split; [| split; [reflexivity | reflexivity]]]].
  - intros l Hl. rewrite Hl. simpl. apply lookup_delete_eq.
  - intros k Hk. destruct (logger_ fx) as [l |]; [| reflexivity].
    simpl. apply lookup_delete_ne. congruence.
  - by destruct (logger_ fx).
Qed.

(** X8: on a fixture whose pointer is empty or owns a live object,
    [hasLogger()] tells whether [logger()] may be used: when it is true,
    [logger().log(m)] writes [m] and a newline; when it is false, the call
    is undefined behaviour. *)
Theorem hasLogger_guards_logger (fx : fixture) (w : world) (m : string_view) :
  fixture_ok fx w ->
  if hasLogger fx
  then exists w', logger_log fx m w = Normal tt w' /\
                  cout w' = cout w ++ m ++ [LF] /\ heap w' = heap w
  else logger_log fx m w = Undefined.
Proof.
  intros Hok. rewrite logger_log_is_log. destruct fx as [[l |]]; simpl in *.
  - destruct (Hok l eq_refl) as [obj Hl].
    eexists. split; [by apply log_live with obj |]. by split.
  - reflexivity.
Qed.

(** X9: one whole test of [AppScenarioTest], for any parameter
    [messages] and from any world: [SetUp], the loop, [TearDown] and the
    destruction of the fixture complete without undefined behaviour and
    without an exception, write exactly the messages, one line each call,
    and leave the heap as it was. *)
Theorem run_test_ScenarioMessageSequence (messages : list string_view) (w : world) :
  exists w' : world,
    run_test alloc (fun fx => ScenarioMessageSequence fx messages) w
      = Normal tt w' /\
    cout w' = cout w ++ written messages /\
    heap w' = heap w /\
    penv w' = penv w.
Proof.
  unfold run_test.
  assert (Hok0 : fixture_ok fixture_new w) by (intros l [=]).
  unfold bind at 1. rewrite (SetUp_run fixture_new w Hok0). simpl.
  set (l := alloc (dom (heap w))).
  unfold bind at 1. rewrite ScenarioMessageSequence_is_log_each. simpl.
  erewrite log_each_run by (simpl; apply lookup_insert_eq).
  unfold bind at 1. rewrite TearDown_run
    by (intros k [= <-]; simpl; rewrite lookup_insert_eq; by eexists).
  simpl. eexists. split; [reflexivity |]. simpl.
  split; [reflexivity |]. split; [| reflexivity].
  apply delete_insert_id, not_elem_of_dom, alloc_fresh.
Qed.

End Fixtures.

(** ** The parameterised tests *)


Section MessageLengths.

Variable alloc : gset loc -> loc.
Hypothesis alloc_fresh : forall X : gset loc, alloc X ∉ X.

(** The [max_size()] of the implementation's [std::string]. *)
Variable max_size : N.


End MessageLengths.

(** *** Decimal numerals *)

Lemma lit_String (a : Ascii.ascii) (s : string) :
  lit (String a s) = Ascii.byte_of_ascii a :: lit s.
Proof. reflexivity. Qed.

Lemma lit_inj (s1 s2 : string) : lit s1 = lit s2 -> s1 = s2.
Proof.
  intros H. apply (f_equal string_of_list_byte) in H.
  unfold lit in H. by rewrite !string_of_list_byte_of_string in H.
Qed.

Lemma digit_not_LF (d : N) : LF <> Ascii.byte_of_ascii (pretty_N_char d).
Proof. unfold pretty_N_char. by repeat case_match. Qed.

Lemma pretty_N_go_no_LF (x : N) :
  forall s : string, LF ∉ lit s -> LF ∉ lit (pretty_N_go x s).
Proof.
  induction (N.lt_wf_0 x) as [x _ IH]. intros s Hs.
  destruct (decide (x = 0)%N) as [-> | Hx].
  - by rewrite pretty_N_go_0.
  - rewrite pretty_N_go_step by lia. apply IH.
    + apply N.div_lt; lia.
    + rewrite lit_String. apply not_elem_of_cons. split; [apply digit_not_LF | exact Hs].
Qed.

Lemma pretty_N_no_LF (x : N) : LF ∉ lit (pretty x).
Proof.
  unfold pretty, pretty_N. case_decide.
  - intros Hin. vm_compute in Hin. apply elem_of_cons in Hin as [Hin | Hin];
      [discriminate Hin | by apply elem_of_nil in Hin].
  - apply pretty_N_go_no_LF. apply not_elem_of_nil.
Qed.

(** A numeral never contains a newline. *)
Lemma to_string_no_LF (i : Z) : LF ∉ to_string i.
Proof.
  unfold to_string. destruct i as [| p | p]; unfold pretty, pretty_Z.
  - apply (pretty_N_no_LF 0).
  - apply (pretty_N_no_LF (Npos p)).
  - change ("-" +:+ pretty p)%string with (String (Ascii.ascii_of_byte "-"%byte) (pretty p)).
    rewrite lit_String. apply not_elem_of_cons. split; [discriminate |].
    apply (pretty_N_no_LF (Npos p)).
Qed.

Lemma to_string_inj (i j : Z) : to_string i = to_string j -> i = j.
Proof. unfold to_string. intros H. by apply lit_inj, pretty_Z_inj in H. Qed.

(** The counting loop over a [log] call is the loop over the list of its
    messages. *)
Lemma for_from_log_each (p : unique_ptr) (f : Z -> string_view) (k : nat) :
  forall (i : Z) (w : world),
    for_from i k (fun j => log p (f j)) w
    = log_each p (map (fun j : nat => f (i + Z.of_nat j)%Z) (seq 0 k)) w.
Proof.
  induction k as [| k IH]; intros i w; [reflexivity |].
  cbn [for_from seq map log_each]. rewrite Z.add_0_r. unfold bind.
  destruct (log p (f i) w) as [[] w1 | |]; try reflexivity.
  rewrite IH, <- seq_shift, map_map. f_equal. apply map_ext. intros j.
  f_equal. lia.
Qed.

(** X11: the high-volume test for any bound [n] that fits an [int] (the
    source has 100): on a fixture with a live logger the loop writes
    exactly [n] lines, line [i] being "Log message " followed by the
    decimal numeral of [i], for [i] from 0 in increasing order; the lines
    are pairwise different and no object changes. *)
Theorem HighVolumeLogging_lines
    (n : nat) (fx : AppLoggingIntSuite.fixture) (w : world) (l : loc) (obj : object) :
  (Z.of_nat n <= INT_MAX)%Z ->
  AppLoggingIntSuite.logger_ fx = Some l ->
  heap w !! l = Some obj ->
  let msgs := map (fun i : nat => lit "Log message " ++ to_string (Z.of_nat i))
                  (seq 0 n) in
  exists w' : world,
    AppLoggingIntSuite.HighVolumeLogging n fx w = Normal tt w' /\
    cout w' = cout w ++ written msgs /\
    lines (written msgs) = msgs /\
    length msgs = n /\
    NoDup msgs /\
    heap w' = heap w.
Proof.
  intros _ Hfx Hl msgs. unfold AppLoggingIntSuite.HighVolumeLogging.
  unfold AppLoggingIntSuite.hasLogger. rewrite Hfx.
  rewrite bool_decide_eq_true_2 by discriminate.
  unfold for_upto.
  assert (Hbody : (fun i => AppLoggingIntSuite.logger_log fx
                              (lit "Log message " ++ to_string i))
                  = (fun i => log (Some l) (lit "Log message " ++ to_string i))).
  { unfold AppLoggingIntSuite.logger_log, AppLoggingIntSuite.logger.
    by rewrite Hfx. }
  rewrite Hbody.
  rewrite (for_from_log_each (Some l)
             (fun i => lit "Log message " ++ to_string i) n 0 w).
  change (map (fun j : nat => lit "Log message " ++ to_string (0 + Z.of_nat j))
              (seq 0 n)) with msgs.
  rewrite (log_each_run l obj msgs w Hl).
  eexists. split; [reflexivity |]. simpl. split; [reflexivity |].
  split; [| split; [| split; [| reflexivity]]].
  - apply lines_written. apply Forall_forall. intros m Hm.
    apply list_elem_of_fmap in Hm as (i & -> & _).
    intros [Hin | Hin]%elem_of_app.
    + vm_compute in Hin.
      repeat (apply elem_of_cons in Hin as [Hin | Hin]; [discriminate Hin |]).
      by apply elem_of_nil in Hin.
    + by apply to_string_no_LF in Hin.
  - unfold msgs. by rewrite length_map, length_seq.
  - unfold msgs. apply NoDup_fmap_2; [| apply NoDup_seq].
    intros i j Hij. apply app_inv_head, to_string_inj in Hij. lia.
Qed.

(** ** The composition root and the factory contract *)

Lemma main_is_main_with (alloc : gset loc -> loc) :
  main alloc = main_with (createDefaultLogger alloc).
Proof. reflexivity. Qed.



(** ** Concrete runs of the above *)

Lemma exec_all_cout_witness :
  exists w' : world,
    exec_all fresh two_component_client (process_start env0) = Normal tt w' /\
    cout w' = cout (process_start env0)
              ++ written (logged_messages two_component_client) /\
    penv w' = penv (process_start env0).
Proof.
  eexists. split; [vm_compute; reflexivity |].
  apply (exec_all_cout fresh two_component_client (process_start env0)).
  vm_compute. reflexivity.
Defined.

Lemma create_destroy_round_trip_witness :
  (forall X : gset loc, fresh X ∉ X) /\
  exists (p : unique_ptr) (w1 w2 : world),
    createDefaultLogger fresh world_with_logger = Normal p w1 /\
    unique_ptr_destroy p w1 = Normal tt w2 /\
    heap w2 = heap world_with_logger /\
    cout w2 = cout world_with_logger /\
    penv w2 = penv world_with_logger.
Proof.
  split; [apply is_fresh |].
  apply (create_destroy_round_trip fresh is_fresh world_with_logger).
Defined.

Lemma main_leaves_heap_witness :
  (forall X : gset loc, fresh X ∉ X) /\
  exists w' : world,
    main fresh world_with_logger = Normal EXIT_SUCCESS w' /\
    heap w' = heap world_with_logger /\
    penv w' = penv world_with_logger.
Proof.
  split; [apply is_fresh |].
  apply (main_leaves_heap fresh is_fresh world_with_logger).
Defined.

Lemma fixture_with_logger_ok :
  AppLoggingIntSuite.fixture_ok
    {| AppLoggingIntSuite.logger_ := Some 1%positive |} world_with_logger.
Proof. intros l [= <-]. by eexists. Defined.

Lemma SetUp_establishes_witness :
  let fx := {| AppLoggingIntSuite.logger_ := Some 1%positive |} in
  exists (l : loc) (w' : world),
    AppLoggingIntSuite.SetUp fresh fx world_with_logger
      = Normal {| AppLoggingIntSuite.logger_ := Some l |} w' /\
    AppLoggingIntSuite.hasLogger {| AppLoggingIntSuite.logger_ := Some l |} = true /\
    AppLoggingIntSuite.fixture_ok {| AppLoggingIntSuite.logger_ := Some l |} w' /\
    heap w' !! l = Some (Object ConsoleLogger) /\
    (l ∉ dom (heap world_with_logger)) /\
    (forall old, AppLoggingIntSuite.logger_ fx = Some old -> heap w' !! old = None) /\
    (forall k, k <> l -> AppLoggingIntSuite.logger_ fx <> Some k ->
               heap w' !! k = heap world_with_logger !! k) /\
    cout w' = cout world_with_logger.
Proof.
  apply (SetUp_establishes fresh is_fresh _ world_with_logger fixture_with_logger_ok).
Defined.

Lemma TearDown_releases_witness :
  let fx := {| AppLoggingIntSuite.logger_ := Some 1%positive |} in
  exists w' : world,
    AppLoggingIntSuite.TearDown fx world_with_logger
      = Normal AppLoggingIntSuite.fixture_new w' /\
    AppLoggingIntSuite.hasLogger AppLoggingIntSuite.fixture_new = false /\
    (forall l, AppLoggingIntSuite.logger_ fx = Some l -> heap w' !! l = None) /\
    (forall k, AppLoggingIntSuite.logger_ fx <> Some k ->
               heap w' !! k = heap world_with_logger !! k) /\
    cout w' = cout world_with_logger /\
    AppLoggingIntSuite.TearDown AppLoggingIntSuite.fixture_new w'
      = Normal AppLoggingIntSuite.fixture_new w' /\
    (forall m, AppLoggingIntSuite.logger_log AppLoggingIntSuite.fixture_new m w'
               = Undefined).
Proof.
  apply (TearDown_releases _ world_with_logger fixture_with_logger_ok).
Defined.

Lemma hasLogger_guards_logger_witness :
  let fx := {| AppLoggingIntSuite.logger_ := Some 1%positive |} in
  AppLoggingIntSuite.hasLogger fx = true /\
  exists w',
    AppLoggingIntSuite.logger_log fx (lit "Test message") world_with_logger
      = Normal tt w' /\
    cout w' = cout world_with_logger ++ lit "Test message" ++ [LF] /\
    heap w' = heap world_with_logger.
Proof.
  split; [reflexivity |].
  apply (hasLogger_guards_logger _ world_with_logger (lit "Test message")
           fixture_with_logger_ok).
Defined.

Lemma run_test_ScenarioMessageSequence_witness :
  (forall X : gset loc, fresh X ∉ X) /\
  exists w' : world,
    AppLoggingIntSuite.run_test fresh
      (fun fx => AppLoggingIntSuite.ScenarioMessageSequence fx
                   [lit "User login attempt"; lit "Authentication success";
                    lit "Session created"])
      world_with_logger = Normal tt w' /\
    cout w' = cout world_with_logger
              ++ written [lit "User login attempt"; lit "Authentication success";
                          lit "Session created"] /\
    heap w' = heap world_with_logger /\
    penv w' = penv world_with_logger.
Proof.
  split; [apply is_fresh |].
  apply (run_test_ScenarioMessageSequence fresh is_fresh).
Defined.


Lemma HighVolumeLogging_lines_witness :
  (Z.of_nat 100 <= INT_MAX)%Z /\
  let msgs := map (fun i : nat => lit "Log message " ++ to_string (Z.of_nat i))
                  (seq 0 100) in
  exists w' : world,
    AppLoggingIntSuite.HighVolumeLoggingScenario
      {| AppLoggingIntSuite.logger_ := Some 1%positive |} world_with_logger
      = Normal tt w' /\
    cout w' = cout world_with_logger ++ written msgs /\
    lines (written msgs) = msgs /\
    length msgs = 100%nat /\
    NoDup msgs /\
    heap w' = heap world_with_logger.
Proof.
  assert (H : (Z.of_nat 100 <= INT_MAX)%Z) by (vm_compute; discriminate).
  split; [exact H |].
  apply (HighVolumeLogging_lines 100
           {| AppLoggingIntSuite.logger_ := Some 1%positive |}
           world_with_logger 1%positive (Object ConsoleLogger) H);
    reflexivity.
Defined.


Example HighVolumeLogging_first_lines :
  to_string 0 = lit "0" /\ to_string 42 = lit "42" /\ to_string 99 = lit "99" /\
  to_string (-7) = lit "-7".
Proof. repeat split; vm_compute; reflexivity. Qed.
